(** * LendingFlowStack and the document processing dispatcher

    Part 1 embeds [src/deployment/stacks/lending_flow_stack.py]: the
    context values read at synthesis, the keyword arguments forwarded to
    [create_invoke_data_automation_function], the Lambda environment
    comprehension, the placeholder prefixes and the EventBridge rule.

    Part 2 embeds the dispatcher core that runs inside the Lambda
    ([lambda/lending_flow/documents_processor], which is not part of the
    sources at hand): Location Deriver, Profile Resolver, Idempotency Guard
    and Job Dispatcher, modelled from the specification. *)

From Stdlib Require Import String Ascii Bool ZArith.
From stdpp Require Import base gmap strings list fin_maps.

Local Open Scope list_scope.

(* ===================================================================== *)
(** ** Part 1: the CDK stack                                               *)
(* ===================================================================== *)

Module LendingFlowStack.

(** [self.node.try_get_context(...)]: a context value or [None]. *)
Record Context := {
  data_project_name : option string;
  bda_runtime_endpoint : option string
}.

(** Python keyword arguments, in the order the call site builds them. *)
Definition Kwargs := list (string * string).

(** Lines 103-107:
    [**({'bda_runtime_endpoint': x} if x is not None else {}),
     **({'data_project_name': y} if y is not None else {})]. *)
Definition conditional_kwarg (name : string) (v : option string) : Kwargs :=
  match v with
  | Some x => [(name, x)]
  | None => []
  end.

Definition invoke_kwargs (ctx : Context) : Kwargs :=
  conditional_kwarg "bda_runtime_endpoint" (bda_runtime_endpoint ctx) ++
  conditional_kwarg "data_project_name" (data_project_name ctx).

(** Binding of a keyword parameter declared [Optional[str] = None]. *)
Fixpoint kwarg_lookup (kw : Kwargs) (name : string) : option string :=
  match kw with
  | [] => None
  | (k, v) :: rest => if String.eqb k name then Some v else kwarg_lookup rest name
  end.

(** Lines 175-183: the dict literal in source order, then
    [{k: v for k, v in d.items() if v is not None}]. *)
Definition environment_candidates (target_bucket_name : string)
    (data_project_name bda_runtime_endpoint : option string)
    : list (string * option string) :=
  [("TARGET_BUCKET_NAME", Some target_bucket_name);
   ("BDA_RUNTIME_ENDPOINT", bda_runtime_endpoint);
   ("DATA_PROJECT_NAME", data_project_name)].

Fixpoint keep_not_none (items : list (string * option string)) : list (string * string) :=
  match items with
  | [] => []
  | (k, Some v) :: rest => (k, v) :: keep_not_none rest
  | (_, None) :: rest => keep_not_none rest
  end.

(** The parts of the Lambda function the stack configures. *)
Record LambdaFunction := {
  fn_id : string;
  fn_handler : string;
  fn_timeout_seconds : nat;
  fn_environment : list (string * string)
}.

Definition create_invoke_data_automation_function (target_bucket_name : string)
    (kw : Kwargs) : LambdaFunction :=
  let data_project_name := kwarg_lookup kw "data_project_name" in
  let bda_runtime_endpoint := kwarg_lookup kw "bda_runtime_endpoint" in
  {| fn_id := "invoke_data_automation";
     fn_handler := "index.lambda_handler";
     fn_timeout_seconds := 300;
     fn_environment := keep_not_none
       (environment_candidates target_bucket_name data_project_name bda_runtime_endpoint) |}.

(** [events.EventPattern] as built by [create_event_rule]. *)
Record EventPattern := {
  ep_source : list string;
  ep_detail_type : list string;
  ep_bucket_name : list string;
  ep_key_prefix : string
}.

Record Rule := {
  rule_id : string;
  rule_pattern : EventPattern;
  rule_target : string
}.

Definition create_event_rule (bucket_name id prefix : string) (target : LambdaFunction) : Rule :=
  {| rule_id := id;
     rule_pattern := {| ep_source := ["aws.s3"];
                        ep_detail_type := ["Object Created"];
                        ep_bucket_name := [bucket_name];
                        ep_key_prefix := prefix |};
     rule_target := fn_id target |}.

(** The resources of the stack that the claims are about. *)
Record Stack := {
  bucket_name : string;
  placeholder_prefixes : list string;
  invoke_function : LambdaFunction;
  rules : list Rule
}.

Definition prefixes : list string :=
  ["samples/"; "samples-output/"; "documents/"; "documents-output/"].

(** [LendingFlowStack.__init__]; [bucket_name] is the token CDK assigns to
    [bucket.bucket_name]. *)
Definition lending_flow_stack (bucket_name : string) (ctx : Context) : Stack :=
  let fn := create_invoke_data_automation_function bucket_name (invoke_kwargs ctx) in
  {| bucket_name := bucket_name;
     placeholder_prefixes := prefixes;
     invoke_function := fn;
     rules := [create_event_rule bucket_name "DocumentsRule" "documents/" fn] |}.

(** String prefix test ([str.startswith], and EventBridge's
    [{"prefix": p}] filter), by recursion on the prefix. *)
Fixpoint starts_with (p s : string) : bool :=
  match p, s with
  | EmptyString, _ => true
  | String c p', String c' s' => Ascii.eqb c c' && starts_with p' s'
  | String _ _, EmptyString => false
  end.

(** An S3 notification as EventBridge sees it. *)
Record S3Event := {
  ev_source : string;
  ev_detail_type : string;
  ev_bucket : string;
  ev_key : string
}.

(** EventBridge matching: a list of values matches any of them, and a
    [{"prefix": p}] filter is a string prefix test on the key. *)
Definition pattern_matches (p : EventPattern) (e : S3Event) : bool :=
  existsb (String.eqb (ev_source e)) (ep_source p) &&
  existsb (String.eqb (ev_detail_type e)) (ep_detail_type p) &&
  existsb (String.eqb (ev_bucket e)) (ep_bucket_name p) &&
  starts_with (ep_key_prefix p) (ev_key e).

(** The processing Lambda is invoked for [e] when some rule targeting it
    matches [e]. *)
Definition triggers_lambda (st : Stack) (e : S3Event) : bool :=
  existsb (fun r => pattern_matches (rule_pattern r) e &&
                    String.eqb (rule_target r) (fn_id (invoke_function st)))
          (rules st).

Definition env_keys (st : Stack) : list string :=
  map fst (fn_environment (invoke_function st)).

Definition env_lookup (st : Stack) (k : string) : option string :=
  kwarg_lookup (fn_environment (invoke_function st)) k.

(** The key [k] when the optional value [o] is present. *)
Definition present_key (k : string) (o : option string) : list string :=
  match o with
  | Some _ => [k]
  | None => []
  end.

(** An explicit configuration structure in the sense of the specification's
    design notes: every optional field is always carried (with its value or
    a documented default), never dropped when absent. *)
Definition fields_always_present (st : Stack) : Prop :=
  In "BDA_RUNTIME_ENDPOINT" (env_keys st) /\ In "DATA_PROJECT_NAME" (env_keys st).

(** The prefixes the stack deploys placeholders for, other than the routed
    "documents/". *)
Definition unrouted_prefixes : list string :=
  ["samples/"; "samples-output/"; "documents-output/"].

(** [s.replace('/', '')]: Python replaces every occurrence. *)
Fixpoint remove_slashes (s : string) : string :=
  match s with
  | EmptyString => EmptyString
  | String c rest =>
      if Ascii.eqb c "/"%char then remove_slashes rest else String c (remove_slashes rest)
  end.

(** [s3_deployment.BucketDeployment] with one [Source.data(name, content)]. *)
Record BucketDeployment := {
  bd_id : string;
  bd_source_name : string;
  bd_source_content : string;
  bd_destination_key_prefix : string
}.

(** Lines 92-99, the body of the loop over [prefixes]. *)
Definition placeholder_deployment (prefix : string) : BucketDeployment :=
  {| bd_id := "Deploy" +:+ remove_slashes prefix;
     bd_source_name := remove_slashes prefix +:+ ".placeholder";
     bd_source_content := "";
     bd_destination_key_prefix := prefix |}.

Definition placeholder_deployments (st : Stack) : list BucketDeployment :=
  map placeholder_deployment (placeholder_prefixes st).

Fixpoint ends_with_slash (s : string) : bool :=
  match s with
  | EmptyString => false
  | String c EmptyString => Ascii.eqb c "/"%char
  | String _ rest => ends_with_slash rest
  end.

(** The object a deployment writes: the deployment syncs its files to
    [s3://bucket/<prefix>], and [aws s3 sync] puts them under the prefix as
    a folder, adding a '/' to a non-empty prefix that lacks one. *)
Definition deployed_object_key (d : BucketDeployment) : string :=
  let p := bd_destination_key_prefix d in
  match p with
  | EmptyString => bd_source_name d
  | _ => (if ends_with_slash p then p else p +:+ "/") +:+ bd_source_name d
  end.

(** The notification S3 emits when a deployment writes its object. *)
Definition object_created (bucket key : string) : S3Event :=
  {| ev_source := "aws.s3"; ev_detail_type := "Object Created";
     ev_bucket := bucket; ev_key := key |}.

(** [iam.PolicyStatement(actions=..., resources=...)]. *)
Record PolicyStatement := {
  ps_actions : list string;
  ps_resources : list string
}.

(** Lines 190-197: the statements added to the Lambda's role. *)
Definition invoke_function_role_statements : list PolicyStatement :=
  [{| ps_actions := ["bedrock:InvokeDataAutomationAsync"]; ps_resources := ["*"] |};
   {| ps_actions := ["bedrock:List*"]; ps_resources := ["*"] |}].

(** IAM compares action names without regard to case. *)
Definition lower (c : ascii) : ascii :=
  let n := nat_of_ascii c in
  if (65 <=? n) && (n <=? 90) then ascii_of_nat (n + 32) else c.

Definition char_eq_ci (a b : ascii) : bool := Ascii.eqb (lower a) (lower b).

(** IAM wildcard matching: '*' matches any run of characters, '?' any one. *)
Fixpoint glob_ci (p s : string) : bool :=
  match p with
  | EmptyString => match s with EmptyString => true | _ => false end
  | String c p' =>
      if Ascii.eqb c "*"%char then
        (fix try_from (s : string) : bool :=
           glob_ci p' s || match s with EmptyString => false | String _ s' => try_from s' end) s
      else
        match s with
        | EmptyString => false
        | String c' s' => (Ascii.eqb c "?"%char || char_eq_ci c c') && glob_ci p' s'
        end
  end.

Fixpoint eq_ci (a b : string) : bool :=
  match a, b with
  | EmptyString, EmptyString => true
  | String c a', String c' b' => char_eq_ci c c' && eq_ci a' b'
  | _, _ => false
  end.

Fixpoint starts_with_ci (p s : string) : bool :=
  match p, s with
  | EmptyString, _ => true
  | String c p', String c' s' => char_eq_ci c c' && starts_with_ci p' s'
  | String _ _, EmptyString => false
  end.

(** Whether some statement allows [action] on [resource]. *)
Definition statements_allow (stmts : list PolicyStatement) (action resource : string) : bool :=
  existsb (fun st => existsb (fun pat => glob_ci pat action) (ps_actions st) &&
                     existsb (fun pat => glob_ci pat resource) (ps_resources st)) stmts.

(** A pattern without IAM wildcards. *)
Fixpoint no_wildcards (p : string) : bool :=
  match p with
  | EmptyString => true
  | String c p' => negb (Ascii.eqb c "*"%char) && negb (Ascii.eqb c "?"%char) && no_wildcards p'
  end.

End LendingFlowStack.

(* ===================================================================== *)
(** ** Part 2: the dispatcher core                                         *)
(* ===================================================================== *)

Inductive Result (A E : Type) : Type :=
| Ok (a : A)
| Err (e : E).
Arguments Ok {A E} a.
Arguments Err {A E} e.

(** *** Location Deriver *)
Module Deriver.

(** The router/deriver part of the configuration surface. *)
Record Configuration := {
  inputPrefixes : list string;
  prefixToOutputSuffix : list (string * string)
}.

Record ProcessingLocation := {
  inputUri : string;
  outputUri : string
}.

Inductive DeriveError := UnroutableKeyError | UnmappedPrefixError.

Definition s3_uri (bucket key : string) : string :=
  "s3://" +:+ bucket +:+ "/" +:+ key.

(** First path segment and, when the key has a '/', the remainder. *)
Fixpoint split_first_segment (key : string) : string * option string :=
  match key with
  | EmptyString => (EmptyString, None)
  | String c rest =>
      if Ascii.eqb c "/"%char then (EmptyString, Some rest)
      else let (seg, rem) := split_first_segment rest in (String c seg, rem)
  end.

Definition join_segment (seg : string) (rem : option string) : string :=
  match rem with
  | Some r => seg +:+ "/" +:+ r
  | None => seg
  end.

Fixpoint assoc (k : string) (m : list (string * string)) : option string :=
  match m with
  | [] => None
  | (k', v) :: rest => if String.eqb k' k then Some v else assoc k rest
  end.

Definition starts_with := LendingFlowStack.starts_with.

Definition routable (cfg : Configuration) (objectKey : string) : bool :=
  existsb (fun p => starts_with p objectKey) (inputPrefixes cfg).

(** Modelled from the spec: the Lambda's location derivation
    ([lambda/lending_flow/documents_processor], absent from the sources),
    following section 4.1 of the specification and step 5 of the stack's
    data flow ("replaces documents with documents-output"). *)
Definition derive (cfg : Configuration) (sourceBucket objectKey : string)
    : Result ProcessingLocation DeriveError :=
  if negb (routable cfg objectKey) then Err UnroutableKeyError
  else
    let (seg, rem) := split_first_segment objectKey in
    match assoc seg (prefixToOutputSuffix cfg) with
    | None => Err UnmappedPrefixError
    | Some suffix =>
        Ok {| inputUri := s3_uri sourceBucket objectKey;
              outputUri := s3_uri sourceBucket (join_segment (seg +:+ suffix) rem) |}
    end.

(** The configuration the repository deploys: the single rule prefix
    "documents/" of the stack, with "documents" mapped to
    "documents-output". *)
Definition deployedConfiguration : Configuration :=
  {| inputPrefixes := ["documents/"];
     prefixToOutputSuffix := [("documents", "-output")] |}.

End Deriver.

(** *** Profile Resolver *)
Module Resolver.

Record ProfileReference := {
  name : string;
  resolvedHandle : string
}.

(** One answer of the processing service's catalog. *)
Inductive LookupResult :=
| Found (handle : string)
| NotFound
| TransientLookupError.

Inductive ResolveError := ProfileNotFoundError | ProfileResolutionTimeoutError.

Inductive StartupError :=
| MissingProfileConfigError
| DefaultProfileUnresolved (e : ResolveError).

(** The catalog, as a function of the attempt number and the name. *)
Definition Catalog := nat -> string -> LookupResult.

Definition defaultLookupAttempts : nat := 3.

(** Modelled from the spec: the catalog lookup of the Lambda (section 4.2):
    not found is permanent, a transient error is retried up to the bounded
    number of attempts and then surfaced as a timeout. *)
Fixpoint lookup_with_retry (catalog : Catalog) (attempt fuel : nat) (n : string)
    : Result ProfileReference ResolveError :=
  match fuel with
  | O => Err ProfileResolutionTimeoutError
  | S fuel' =>
      match catalog attempt n with
      | Found h => Ok {| name := n; resolvedHandle := h |}
      | NotFound => Err ProfileNotFoundError
      | TransientLookupError => lookup_with_retry catalog (S attempt) fuel' n
      end
  end.

Definition resolve_named (catalog : Catalog) (n : string) : Result ProfileReference ResolveError :=
  lookup_with_retry catalog 0 defaultLookupAttempts n.

(** Modelled from the spec: process start resolves the configured default
    profile once; no default at all is the fatal [MissingProfileConfigError]. *)
Definition startup (catalog : Catalog) (defaultProfileName : option string)
    : Result ProfileReference StartupError :=
  match defaultProfileName with
  | None => Err MissingProfileConfigError
  | Some n =>
      match resolve_named catalog n with
      | Ok r => Ok r
      | Err e => Err (DefaultProfileUnresolved e)
      end
  end.

(** Modelled from the spec: [resolve(profileName)] with the default reference
    obtained by [startup]. *)
Definition resolve (catalog : Catalog) (defaultRef : ProfileReference) (profileName : option string)
    : Result ProfileReference ResolveError :=
  match profileName with
  | None => Ok defaultRef
  | Some n => resolve_named catalog n
  end.

End Resolver.

(** *** Dispatch Idempotency Guard *)
Module Guard.

Inductive Status := Pending | Submitted | Failed.

Record DispatchRecord := {
  eventId : string;
  status : Status;
  submittedAt : Z;
  jobHandle : option string
}.

Inductive AdmitResult := AdmitGranted | AlreadyHandled.

Definition fresh_record (now : Z) (eid : string) : DispatchRecord :=
  {| eventId := eid; status := Pending; submittedAt := now; jobHandle := None |}.

(** Modelled from the spec: the atomic admit-or-reject primitive ([admit]) of
    section 4.3 over the record store. A missing record or a [Failed] one
    admits (and the record becomes [Pending]); [Pending] and [Submitted]
    are already handled. *)
Definition admit_event (now : Z) (eid : string) (store : gmap string DispatchRecord)
    : AdmitResult * gmap string DispatchRecord :=
  match store !! eid with
  | None => (AdmitGranted, <[eid := fresh_record now eid]> store)
  | Some r =>
      match status r with
      | Failed => (AdmitGranted, <[eid := fresh_record now eid]> store)
      | Pending | Submitted => (AlreadyHandled, store)
      end
  end.

Definition set_failed (r : DispatchRecord) : DispatchRecord :=
  {| eventId := eventId r; status := Failed; submittedAt := submittedAt r; jobHandle := jobHandle r |}.

Definition set_submitted (now : Z) (h : string) (r : DispatchRecord) : DispatchRecord :=
  {| eventId := eventId r; status := Submitted; submittedAt := now; jobHandle := Some h |}.

Definition mark_failed (eid : string) (store : gmap string DispatchRecord) : gmap string DispatchRecord :=
  alter set_failed eid store.

Definition mark_submitted (now : Z) (h eid : string) (store : gmap string DispatchRecord)
    : gmap string DispatchRecord :=
  alter (set_submitted now h) eid store.

(** Concurrent callers of [admit_event] for one event id. Each call is one atomic
    step on the shared store; the scheduler may run any caller that has not
    returned yet, at any time stamp. [results !! i] is caller [i]'s answer,
    [None] while it has not returned. *)
Definition Config : Type := gmap string DispatchRecord * list (option AdmitResult).

Inductive admit_step (eid : string) : Config -> Config -> Prop :=
| admit_step_call (i : nat) (now : Z) (store : gmap string DispatchRecord)
    (results : list (option AdmitResult)) :
    results !! i = Some None ->
    admit_step eid (store, results)
      ((admit_event now eid store).2, <[i := Some (admit_event now eid store).1]> results).

Definition is_admitted (o : option AdmitResult) : bool :=
  match o with Some AdmitGranted => true | _ => false end.

Definition is_already_handled (o : option AdmitResult) : bool :=
  match o with Some AlreadyHandled => true | _ => false end.

Definition count_admitted (rs : list (option AdmitResult)) : nat :=
  length (filter (fun o => is_admitted o = true) rs).

Definition count_already_handled (rs : list (option AdmitResult)) : nat :=
  length (filter (fun o => is_already_handled o = true) rs).

(** Whether [admit_event] for [eid] would admit on [store]. *)
Definition admissible (store : gmap string DispatchRecord) (eid : string) : bool :=
  match store !! eid with
  | None => true
  | Some r => match status r with Failed => true | _ => false end
  end.

End Guard.

(** *** Job Dispatcher *)
Module Dispatcher.

Record IntakeEvent := {
  sourceBucket : string;
  objectKey : string;
  eventId : string;
  receivedAt : Z
}.

Record DispatchRequest := {
  location : Deriver.ProcessingLocation;
  profile : Resolver.ProfileReference;
  notifyOnCompletion : bool
}.

(** One answer of the downstream asynchronous submit operation. *)
Inductive SubmitResult :=
| Accepted (jobHandle : string)
| Throttled
| Rejected.

Inductive DispatchError :=
| DeriveFailed (e : Deriver.DeriveError)
| ResolveFailed (e : Resolver.ResolveError)
| DispatchThrottledError
| DispatchRejectedError.

Inductive DispatchOutcome :=
| Submitted (jobHandle : string)
| Skipped
| Failed (reason : DispatchError).

Definition Downstream := nat -> DispatchRequest -> SubmitResult.

Definition defaultDispatchAttempts : nat := 3.

Section WithServices.

Variable cfg : Deriver.Configuration.
Variable catalog : Resolver.Catalog.
Variable downstream : Downstream.
(** The default reference obtained by [Resolver.startup]. *)
Variable defaultRef : Resolver.ProfileReference.

(** Modelled from the spec: step 6 of section 4.4. Throttling is transient
    and retried within the bounded budget; any other rejection is
    permanent. Every call of the downstream service is logged. *)
Fixpoint submit_with_retry (attempt fuel : nat) (req : DispatchRequest)
    : Result string DispatchError * list DispatchRequest :=
  match fuel with
  | O => (Err DispatchThrottledError, [])
  | S fuel' =>
      match downstream attempt req with
      | Accepted h => (Ok h, [req])
      | Rejected => (Err DispatchRejectedError, [req])
      | Throttled =>
          let (r, log) := submit_with_retry (S attempt) fuel' req in (r, req :: log)
      end
  end.

(** Modelled from the spec: [dispatch(event)] of section 4.4, returning the
    outcome, the new record store and the downstream submissions issued. *)
Definition dispatch (ev : IntakeEvent) (profileName : option string)
    (store : gmap string Guard.DispatchRecord)
    : DispatchOutcome * gmap string Guard.DispatchRecord * list DispatchRequest :=
  let eid := eventId ev in
  let (adm, store1) := Guard.admit_event (receivedAt ev) eid store in
  match adm with
  | Guard.AlreadyHandled => (Skipped, store1, [])
  | Guard.AdmitGranted =>
      match Deriver.derive cfg (sourceBucket ev) (objectKey ev) with
      | Err e => (Failed (DeriveFailed e), Guard.mark_failed eid store1, [])
      | Ok loc =>
          match Resolver.resolve catalog defaultRef profileName with
          | Err e => (Failed (ResolveFailed e), Guard.mark_failed eid store1, [])
          | Ok prof =>
              let req := {| location := loc; profile := prof; notifyOnCompletion := true |} in
              let (res, log) := submit_with_retry 0 defaultDispatchAttempts req in
              match res with
              | Ok h => (Submitted h, Guard.mark_submitted (receivedAt ev) h eid store1, log)
              | Err e => (Failed e, Guard.mark_failed eid store1, log)
              end
          end
      end
  end.

(** Deliveries handled one after the other (at-least-once delivery: the
    same event may appear several times). *)
Fixpoint run_deliveries (ds : list (IntakeEvent * option string))
    (store : gmap string Guard.DispatchRecord)
    : list (IntakeEvent * DispatchOutcome * list DispatchRequest) * gmap string Guard.DispatchRecord :=
  match ds with
  | [] => ([], store)
  | (ev, pn) :: rest =>
      let '(o, store1, log) := dispatch ev pn store in
      let (trace, store2) := run_deliveries rest store1 in
      ((ev, o, log) :: trace, store2)
  end.

End WithServices.

(** Modelled from the spec: the Lambda process (section 4.2). It starts
    once, resolving the configured default profile with the catalog as it
    is at start ([catalog0]); a start failure is fatal and no event is
    handled. Otherwise every delivery is dispatched with the default
    reference fixed at start, the catalog at event time being [catalog]. *)
Definition run_process (catalog0 : Resolver.Catalog) (defaultProfileName : option string)
    (cfg : Deriver.Configuration) (catalog : Resolver.Catalog) (downstream : Downstream)
    (ds : list (IntakeEvent * option string)) (store : gmap string Guard.DispatchRecord)
    : Result (list (IntakeEvent * DispatchOutcome * list DispatchRequest) *
              gmap string Guard.DispatchRecord) Resolver.StartupError :=
  match Resolver.startup catalog0 defaultProfileName with
  | Err e => Err e
  | Ok ref => Ok (run_deliveries cfg catalog downstream ref ds store)
  end.

End Dispatcher.

(** *** Concrete services and events used to exercise the theorems *)
Module Samples.

Definition catalog : Resolver.Catalog :=
  fun _ n => if String.eqb n "missing-profile" then Resolver.NotFound
             else Resolver.Found ("arn:" +:+ n).

Definition downstream : Dispatcher.Downstream := fun _ _ => Dispatcher.Accepted "job-1".

Definition defaultRef : Resolver.ProfileReference :=
  {| Resolver.name := "lending"; Resolver.resolvedHandle := "arn:lending" |}.

Definition evt1 : Dispatcher.IntakeEvent :=
  {| Dispatcher.sourceBucket := "b"; Dispatcher.objectKey := "documents/loan123.pdf";
     Dispatcher.eventId := "evt-1"; Dispatcher.receivedAt := 0%Z |}.

Definition submitted_record : Guard.DispatchRecord :=
  {| Guard.eventId := "evt-1"; Guard.status := Guard.Submitted;
     Guard.submittedAt := 0%Z; Guard.jobHandle := Some "job-1" |}.

Definition failed_record : Guard.DispatchRecord :=
  {| Guard.eventId := "evt-1"; Guard.status := Guard.Failed;
     Guard.submittedAt := 0%Z; Guard.jobHandle := None |}.

Definition no_context : LendingFlowStack.Context :=
  {| LendingFlowStack.data_project_name := None; LendingFlowStack.bda_runtime_endpoint := None |}.

Definition samples_upload : LendingFlowStack.S3Event :=
  {| LendingFlowStack.ev_source := "aws.s3"; LendingFlowStack.ev_detail_type := "Object Created";
     LendingFlowStack.ev_bucket := "bk"; LendingFlowStack.ev_key := "samples/a.pdf" |}.

End Samples.

(* ===================================================================== *)
(** ** Theorems about the stack                                            *)
(* ===================================================================== *)

Module StackFacts.
Import LendingFlowStack.

(** Claim C9: for every combination of the optional context values, the
    Lambda environment always holds TARGET_BUCKET_NAME, holds
    DATA_PROJECT_NAME and BDA_RUNTIME_ENDPOINT exactly when the context
    value is present (with that value), and omits a missing value. *)
Theorem lambda_environment_presence (bn : string) (ctx : Context) :
  let st := lending_flow_stack bn ctx in
  env_lookup st "TARGET_BUCKET_NAME" = Some bn /\
  env_lookup st "DATA_PROJECT_NAME" = data_project_name ctx /\
  env_lookup st "BDA_RUNTIME_ENDPOINT" = bda_runtime_endpoint ctx /\
  env_keys st = ["TARGET_BUCKET_NAME"] ++
                present_key "BDA_RUNTIME_ENDPOINT" (bda_runtime_endpoint ctx) ++
                present_key "DATA_PROJECT_NAME" (data_project_name ctx).
Proof.
  destruct ctx as [[d|] [b|]]; repeat split; reflexivity.
Qed.

(** Claim C8 (counterexample): the stack does not build an explicit
    configuration structure; with both context values absent, no keyword
    argument is forwarded and the environment drops both optional fields. *)
Lemma conditional_merging_counterexample :
  invoke_kwargs {| data_project_name := None; bda_runtime_endpoint := None |} = [] /\
  ~ (forall bn ctx, fields_always_present (lending_flow_stack bn ctx)).
Proof.
  split; [reflexivity |].
  intros H.
  destruct (H "bucket" {| data_project_name := None; bda_runtime_endpoint := None |})
    as [Hin _].
  simpl in Hin. destruct Hin as [Hin | []]. discriminate Hin.
Qed.

(** Claim C8 (as amended): the context values are read at synthesis and
    merged conditionally: each optional value is forwarded as a keyword
    argument and becomes an environment variable only when it is present;
    an absent value is neither forwarded nor given a default. *)
Theorem conditional_merging (bn : string) (ctx : Context) :
  let kw := invoke_kwargs ctx in
  let st := lending_flow_stack bn ctx in
  kw = conditional_kwarg "bda_runtime_endpoint" (bda_runtime_endpoint ctx) ++
       conditional_kwarg "data_project_name" (data_project_name ctx) /\
  kwarg_lookup kw "data_project_name" = data_project_name ctx /\
  kwarg_lookup kw "bda_runtime_endpoint" = bda_runtime_endpoint ctx /\
  (data_project_name ctx = None <-> ~ In "DATA_PROJECT_NAME" (env_keys st)) /\
  (bda_runtime_endpoint ctx = None <-> ~ In "BDA_RUNTIME_ENDPOINT" (env_keys st)).
Proof.
  destruct ctx as [[d|] [b|]]; simpl;
    repeat split; try reflexivity; intros H;
    try discriminate; try (exfalso; apply H; simpl; tauto);
    intros Hin; simpl in Hin; intuition discriminate.
Qed.

Lemma triggers_lambda_iff (bn : string) (ctx : Context) (e : S3Event) :
  triggers_lambda (lending_flow_stack bn ctx) e = true <->
  ev_source e = "aws.s3" /\ ev_detail_type e = "Object Created" /\
  ev_bucket e = bn /\ starts_with "documents/" (ev_key e) = true.
Proof.
  unfold triggers_lambda, pattern_matches. simpl.
  rewrite !orb_false_r, !andb_true_r, !andb_true_iff, !String.eqb_eq. tauto.
Qed.

Lemma unrouted_prefix_not_documents (p rest : string) :
  In p unrouted_prefixes -> starts_with "documents/" (p +:+ rest) = false.
Proof. simpl. intros [<- | [<- | [<- | []]]]; reflexivity. Qed.

(** Claim C10: the stack creates exactly one routing rule; it invokes the
    processing Lambda for an event exactly when the event is an
    "Object Created" event from aws.s3 for this bucket with a key starting
    with "documents/", so an object created under "samples/",
    "samples-output/" or "documents-output/" never invokes it. *)
Theorem single_documents_rule (bn : string) (ctx : Context) :
  let st := lending_flow_stack bn ctx in
  length (rules st) = 1 /\
  (forall e : S3Event,
     triggers_lambda st e = true <->
     ev_source e = "aws.s3" /\ ev_detail_type e = "Object Created" /\
     ev_bucket e = bn /\ starts_with "documents/" (ev_key e) = true) /\
  (forall (e : S3Event) (p rest : string),
     In p unrouted_prefixes -> ev_key e = p +:+ rest -> triggers_lambda st e = false).
Proof.
  cbv zeta. split; [reflexivity | split; [apply triggers_lambda_iff |]].
  intros e p rest Hp Hk.
  destruct (triggers_lambda (lending_flow_stack bn ctx) e) eqn:Ht; [| reflexivity].
  apply triggers_lambda_iff in Ht. destruct Ht as (_ & _ & _ & Hpre).
  rewrite Hk, unrouted_prefix_not_documents in Hpre by exact Hp. discriminate.
Qed.

End StackFacts.

(* ===================================================================== *)
(** ** Theorems about the Location Deriver                                 *)
(* ===================================================================== *)

Module DeriverFacts.
Import Deriver.

Lemma append_cancel_l (s a b : string) : s +:+ a = s +:+ b -> a = b.
Proof. induction s as [| c s IH]; simpl; [auto | intros H; injection H; auto]. Qed.

Lemma prefix_append (p k : string) :
  starts_with p k = true -> exists rest, k = p +:+ rest.
Proof.
  revert k. induction p as [| c p IH]; intros k H.
  - exists k. reflexivity.
  - destruct k as [| c' k]; simpl in H; [discriminate |].
    apply andb_true_iff in H as [Hc H]. apply Ascii.eqb_eq in Hc as <-.
    destruct (IH k H) as [rest ->]. exists rest. reflexivity.
Qed.

Lemma split_first_segment_app (seg rest : string) :
  ~ In "/"%char (list_ascii_of_string seg) ->
  split_first_segment (seg +:+ "/" +:+ rest) = (seg, Some rest).
Proof.
  induction seg as [| c seg IH]; intros Hno; [reflexivity |].
  simpl. destruct (Ascii.eqb c "/"%char) eqn:Hc.
  - apply Ascii.eqb_eq in Hc. subst. simpl in Hno. tauto.
  - simpl in Hno. rewrite IH by tauto. reflexivity.
Qed.

(** A key under a mapped, routable first segment: the first segment is
    replaced by its output counterpart and the remainder is kept. *)
Lemma derive_mapped_key (cfg : Configuration) (b seg rest suffix : string) :
  ~ In "/"%char (list_ascii_of_string seg) ->
  routable cfg (seg +:+ "/" +:+ rest) = true ->
  assoc seg (prefixToOutputSuffix cfg) = Some suffix ->
  derive cfg b (seg +:+ "/" +:+ rest) =
    Ok {| inputUri := s3_uri b (seg +:+ "/" +:+ rest);
          outputUri := s3_uri b ((seg +:+ suffix) +:+ "/" +:+ rest) |}.
Proof.
  intros Hno Hr Hm. unfold derive. rewrite Hr. simpl.
  rewrite split_first_segment_app by exact Hno. rewrite Hm. reflexivity.
Qed.

Lemma derive_deployed_documents (b rest : string) :
  derive deployedConfiguration b ("documents/" +:+ rest) =
    Ok {| inputUri := s3_uri b ("documents/" +:+ rest);
          outputUri := s3_uri b ("documents-output/" +:+ rest) |}.
Proof.
  apply (derive_mapped_key deployedConfiguration b "documents" rest "-output");
    [simpl; intuition discriminate | reflexivity | reflexivity].
Qed.

(** Claim C4: in the deployed configuration, every key under the mapped
    prefix "documents/" derives to fully qualified s3:// URIs, the input one
    on the key itself and the output one on the key with "documents"
    replaced by "documents-output" and the remainder kept; the two differ.
    In particular "documents/loan123.pdf" in bucket "b" gives
    s3://b/documents/loan123.pdf and s3://b/documents-output/loan123.pdf. *)
Theorem derive_documents_location (b rest : string) :
  derive deployedConfiguration b ("documents/" +:+ rest) =
    Ok {| inputUri := "s3://" +:+ b +:+ "/" +:+ "documents/" +:+ rest;
          outputUri := "s3://" +:+ b +:+ "/" +:+ "documents-output/" +:+ rest |} /\
  "s3://" +:+ b +:+ "/" +:+ "documents/" +:+ rest <>
  "s3://" +:+ b +:+ "/" +:+ "documents-output/" +:+ rest /\
  derive deployedConfiguration "b" "documents/loan123.pdf" =
    Ok {| inputUri := "s3://b/documents/loan123.pdf";
          outputUri := "s3://b/documents-output/loan123.pdf" |}.
Proof.
  split; [exact (derive_deployed_documents b rest) |].
  split; [| reflexivity].
  intros H. apply (append_cancel_l "s3://"), (append_cancel_l b) in H.
  simpl in H. discriminate H.
Qed.

(** Claim C5: whatever the configuration, a key that starts with no
    configured input prefix is rejected by the Deriver itself with
    [UnroutableKeyError], independently of any routing done before it, so
    it never yields a processing location. *)
Theorem derive_rejects_unroutable (cfg : Configuration) (b objectKey : string) :
  routable cfg objectKey = false ->
  derive cfg b objectKey = Err UnroutableKeyError /\
  forall loc, derive cfg b objectKey <> Ok loc.
Proof.
  intros Hr. unfold derive. rewrite Hr. simpl.
  split; [reflexivity | intros loc; discriminate].
Qed.

Lemma deployed_routable_documents (k : string) :
  routable deployedConfiguration k = true -> exists rest, k = "documents/" +:+ rest.
Proof.
  unfold routable. cbn [existsb inputPrefixes deployedConfiguration].
  rewrite orb_false_r. apply prefix_append.
Qed.

(** Claim C6: in the deployed configuration, the key of every derived
    output location starts with no configured input prefix: re-fed to the
    Deriver it is rejected as unroutable, and an object created under it
    does not match the stack's routing rule, so no processing loop arises. *)
Theorem derived_output_not_rerouted (b objectKey : string) (loc : ProcessingLocation) :
  derive deployedConfiguration b objectKey = Ok loc ->
  exists outKey,
    outputUri loc = s3_uri b outKey /\
    routable deployedConfiguration outKey = false /\
    derive deployedConfiguration b outKey = Err UnroutableKeyError /\
    (forall (bn : string) (ctx : LendingFlowStack.Context) (e : LendingFlowStack.S3Event),
       LendingFlowStack.ev_key e = outKey ->
       LendingFlowStack.triggers_lambda (LendingFlowStack.lending_flow_stack bn ctx) e = false).
Proof.
  intros Hd.
  assert (Hr : routable deployedConfiguration objectKey = true).
  { destruct (routable deployedConfiguration objectKey) eqn:Hr; [reflexivity |].
    unfold derive in Hd. rewrite Hr in Hd. discriminate Hd. }
  destruct (deployed_routable_documents objectKey Hr) as [rest ->].
  rewrite derive_deployed_documents in Hd. injection Hd as <-.
  exists ("documents-output/" +:+ rest).
  assert (Hout : routable deployedConfiguration ("documents-output/" +:+ rest) = false)
    by reflexivity.
  split; [reflexivity |]. split; [exact Hout |].
  split; [unfold derive; rewrite Hout; reflexivity |].
  intros bn ctx e Hk.
  destruct (LendingFlowStack.triggers_lambda (LendingFlowStack.lending_flow_stack bn ctx) e) eqn:Ht;
    [| reflexivity].
  apply StackFacts.triggers_lambda_iff in Ht. destruct Ht as (_ & _ & _ & Hpre).
  rewrite Hk in Hpre. discriminate Hpre.
Qed.

End DeriverFacts.

(* ===================================================================== *)
(** ** Theorems about the Idempotency Guard                                *)
(* ===================================================================== *)

Module GuardFacts.
Import Guard.

Lemma filter_length_insert {A : Type} (f : A -> bool) (l : list A) (i : nat) (x y : A) :
  l !! i = Some y ->
  length (filter (fun a => f a = true) (<[i := x]> l)) + (if f y then 1 else 0) =
  length (filter (fun a => f a = true) l) + (if f x then 1 else 0).
Proof.
  revert i. induction l as [| a l IH]; intros i Hi; [discriminate |].
  destruct i as [| i]; simpl in *.
  - injection Hi as ->. rewrite !filter_cons.
    destruct (f x) eqn:Hx, (f y) eqn:Hy; simpl; rewrite ?Hx, ?Hy;
      repeat case_decide; simpl in *; try congruence; lia.
  - rewrite !filter_cons. specialize (IH i Hi).
    repeat case_decide; simpl; lia.
Qed.

Lemma count_admitted_insert (rs : list (option AdmitResult)) (i : nat) (x : AdmitResult) :
  rs !! i = Some None ->
  count_admitted (<[i := Some x]> rs) =
  count_admitted rs + (match x with AdmitGranted => 1 | AlreadyHandled => 0 end).
Proof.
  intros Hi. unfold count_admitted.
  pose proof (filter_length_insert is_admitted rs i (Some x) None Hi) as H.
  destruct x; simpl in H; lia.
Qed.

Lemma count_admitted_all_none (rs : list (option AdmitResult)) :
  Forall (fun o => o = None) rs -> count_admitted rs = 0.
Proof.
  induction 1 as [| o rs Ho _ IH]; [reflexivity |].
  subst. unfold count_admitted in *. rewrite filter_cons. case_decide; simpl in *; done.
Qed.

Lemma counts_partition (rs : list (option AdmitResult)) :
  Forall (fun o => o <> None) rs ->
  count_admitted rs + count_already_handled rs = length rs.
Proof.
  unfold count_admitted, count_already_handled.
  induction 1 as [| o rs Ho _ IH]; [reflexivity |].
  rewrite !filter_cons.
  destruct o as [[|]|]; [| | congruence];
    repeat case_decide; simpl in *; try discriminate; lia.
Qed.

(** The invariant of the concurrent admission calls for [eid]: either nobody
    returned yet and the store still admits, or exactly one caller got
    [AdmitGranted] and the record is [Pending]. *)
Definition admit_inv (eid : string) (N : nat) (c : Config) : Prop :=
  length c.2 = N /\
  ((Forall (fun o => o = None) c.2 /\ admissible c.1 eid = true) \/
   (count_admitted c.2 = 1 /\ exists r, c.1 !! eid = Some r /\ status r = Pending)).

Lemma admit_on_admissible (now : Z) (eid : string) (store : gmap string DispatchRecord) :
  admissible store eid = true ->
  admit_event now eid store = (AdmitGranted, <[eid := fresh_record now eid]> store).
Proof.
  unfold admissible, admit_event. destruct (store !! eid) as [r|]; [| done].
  destruct (status r); done.
Qed.

Lemma admit_on_pending (now : Z) (eid : string) (store : gmap string DispatchRecord) (r : DispatchRecord) :
  store !! eid = Some r -> status r = Pending -> admit_event now eid store = (AlreadyHandled, store).
Proof. intros Hr Hs. unfold admit_event. rewrite Hr, Hs. reflexivity. Qed.

Lemma admit_inv_step (eid : string) (N : nat) (c c' : Config) :
  admit_step eid c c' -> admit_inv eid N c -> admit_inv eid N c'.
Proof.
  intros [i now store results Hi] [Hlen Hcase]. simpl in *.
  split; [simpl; rewrite length_insert; exact Hlen |].
  destruct Hcase as [[Hnone Hadm] | [Hone (r & Hr & Hpen)]].
  - right. rewrite admit_on_admissible by exact Hadm. simpl.
    rewrite count_admitted_insert by exact Hi. rewrite count_admitted_all_none by exact Hnone.
    split; [reflexivity |]. exists (fresh_record now eid).
    split; [apply lookup_insert_eq | reflexivity].
  - right. rewrite (admit_on_pending now eid store r Hr Hpen). simpl.
    rewrite count_admitted_insert by exact Hi. rewrite Hone.
    split; [reflexivity | exists r; auto].
Qed.

Lemma admit_inv_steps (eid : string) (N : nat) (c c' : Config) :
  rtc (admit_step eid) c c' -> admit_inv eid N c -> admit_inv eid N c'.
Proof.
  induction 1 as [c | c c1 c' Hstep _ IH]; [auto |].
  intros Hinv. apply IH. exact (admit_inv_step eid N c c1 Hstep Hinv).
Qed.

(** Claim C1: [N >= 1] callers run [admit_event] for the same event id
    concurrently, in any interleaving of their atomic calls and at any time
    stamps, starting from a store in which the id has no record (or a
    [Failed] one, which is retried). Once all of them have returned,
    exactly one got [AdmitGranted] and the other [N - 1] got [AlreadyHandled]. *)
Theorem admit_exactly_one (eid : string) (N : nat)
    (store0 store : gmap string DispatchRecord) (results : list (option AdmitResult)) :
  1 <= N ->
  admissible store0 eid = true ->
  rtc (admit_step eid) (store0, replicate N None) (store, results) ->
  Forall (fun o => o <> None) results ->
  length results = N /\ count_admitted results = 1 /\ count_already_handled results = N - 1.
Proof.
  intros HN Hadm Hrun Hdone.
  assert (Hinv0 : admit_inv eid N (store0, replicate N None)).
  { split; [apply length_replicate |]. left. split; [| exact Hadm].
    apply Forall_replicate. reflexivity. }
  destruct (admit_inv_steps eid N _ _ Hrun Hinv0) as [Hlen Hcase]. simpl in Hlen, Hcase.
  pose proof (counts_partition results Hdone) as Hpart.
  destruct Hcase as [[Hnone _] | [Hone _]].
  - destruct results as [| o rs]; simpl in Hlen; [lia |].
    inversion Hnone; inversion Hdone; congruence.
  - split; [exact Hlen |]. split; [exact Hone | lia].
Qed.

End GuardFacts.

(* ===================================================================== *)
(** ** Theorems about the Job Dispatcher and the Profile Resolver          *)
(* ===================================================================== *)

Module DispatcherFacts.
Import Dispatcher.

Section WithServices.

Variable cfg : Deriver.Configuration.
Variable catalog : Resolver.Catalog.
Variable downstream : Downstream.
Variable defaultRef : Resolver.ProfileReference.

Abbreviation dispatch := (Dispatcher.dispatch cfg catalog downstream defaultRef).
Abbreviation run_deliveries := (Dispatcher.run_deliveries cfg catalog downstream defaultRef).

Lemma admit_other_key (now : Z) (e eid : string) (store : gmap string Guard.DispatchRecord) :
  e <> eid -> (Guard.admit_event now e store).2 !! eid = store !! eid.
Proof.
  intros Hne. unfold Guard.admit_event.
  destruct (store !! e) as [r|]; [destruct (Guard.status r)|]; simpl;
    try (apply lookup_insert_ne; exact Hne); reflexivity.
Qed.

(** A dispatch only touches the record of its own event id. *)
Lemma dispatch_other_key (ev : IntakeEvent) (pn : option string)
    (store : gmap string Guard.DispatchRecord) (eid : string) :
  eventId ev <> eid -> (dispatch ev pn store).1.2 !! eid = store !! eid.
Proof.
  intros Hne. unfold Dispatcher.dispatch.
  destruct (Guard.admit_event (receivedAt ev) (eventId ev) store) as [adm store1] eqn:Hadm.
  assert (H1 : store1 !! eid = store !! eid).
  { rewrite <- (admit_other_key (receivedAt ev) (eventId ev) eid store Hne), Hadm. reflexivity. }
  destruct adm; [| exact H1].
  destruct (Deriver.derive cfg (sourceBucket ev) (objectKey ev)) as [loc|e];
    [| simpl; unfold Guard.mark_failed; rewrite lookup_alter_ne by exact Hne; exact H1].
  destruct (Resolver.resolve catalog defaultRef pn) as [prof|e];
    [| simpl; unfold Guard.mark_failed; rewrite lookup_alter_ne by exact Hne; exact H1].
  destruct (submit_with_retry downstream 0 defaultDispatchAttempts _) as [[h|e] log]; simpl;
    [unfold Guard.mark_submitted | unfold Guard.mark_failed];
    rewrite lookup_alter_ne by exact Hne; exact H1.
Qed.

Lemma dispatch_on_submitted (ev : IntakeEvent) (pn : option string)
    (store : gmap string Guard.DispatchRecord) (r : Guard.DispatchRecord) :
  store !! eventId ev = Some r -> Guard.status r = Guard.Submitted ->
  dispatch ev pn store = (Skipped, store, []).
Proof.
  intros Hr Hs. unfold Dispatcher.dispatch, Guard.admit_event. rewrite Hr, Hs. reflexivity.
Qed.

(** Claim C2: once the record of [eid] is [Submitted], it stays exactly
    that record through any later sequence of deliveries (of this or of
    other events), and every delivery carrying [eid] returns [Skipped]
    without issuing any downstream submission. *)
Theorem submitted_is_terminal (eid : string) (r : Guard.DispatchRecord)
    (ds : list (IntakeEvent * option string)) (store : gmap string Guard.DispatchRecord) :
  store !! eid = Some r -> Guard.status r = Guard.Submitted ->
  (run_deliveries ds store).2 !! eid = Some r /\
  Forall (fun '(ev, o, log) => eventId ev = eid -> o = Skipped /\ log = [])
         (run_deliveries ds store).1.
Proof.
  revert store. induction ds as [| [ev pn] ds IH]; intros store Hr Hs.
  - split; [exact Hr | constructor].
  - simpl.
    destruct (decide (eventId ev = eid)) as [Heq | Hne].
    + subst eid. rewrite (dispatch_on_submitted ev pn store r Hr Hs).
      destruct (IH store Hr Hs) as [IH1 IH2].
      destruct (run_deliveries ds store) as [trace store2]. simpl in *.
      split; [exact IH1 | constructor; [auto | exact IH2]].
    + destruct (dispatch ev pn store) as [[o store1] log] eqn:Hd.
      assert (Hr1 : store1 !! eid = Some r).
      { rewrite <- Hr, <- (dispatch_other_key ev pn store eid Hne), Hd. reflexivity. }
      destruct (IH store1 Hr1 Hs) as [IH1 IH2].
      destruct (run_deliveries ds store1) as [trace store2]. simpl in *.
      split; [exact IH1 | constructor; [intros Heq; congruence | exact IH2]].
Qed.

(** Claim C3: when the record of an event id is [Failed], a redelivery of
    that id is admitted again by the Guard and its dispatch is re-attempted:
    it does not return [Skipped]. *)
Theorem failed_is_reattempted (ev : IntakeEvent) (pn : option string)
    (store : gmap string Guard.DispatchRecord) (r : Guard.DispatchRecord) :
  store !! eventId ev = Some r -> Guard.status r = Guard.Failed ->
  (Guard.admit_event (receivedAt ev) (eventId ev) store).1 = Guard.AdmitGranted /\
  (dispatch ev pn store).1.1 <> Skipped.
Proof.
  intros Hr Hs.
  assert (Hadm : Guard.admit_event (receivedAt ev) (eventId ev) store =
                 (Guard.AdmitGranted, <[eventId ev := Guard.fresh_record (receivedAt ev) (eventId ev)]> store)).
  { unfold Guard.admit_event. rewrite Hr, Hs. reflexivity. }
  split; [rewrite Hadm; reflexivity |].
  unfold Dispatcher.dispatch. rewrite Hadm.
  destruct (Deriver.derive cfg (sourceBucket ev) (objectKey ev)) as [loc|e]; [| discriminate].
  destruct (Resolver.resolve catalog defaultRef pn) as [prof|e]; [| discriminate].
  destruct (submit_with_retry downstream 0 defaultDispatchAttempts _) as [[h|e] log];
    discriminate.
Qed.

(** A dispatch that fails leaves its record [Failed], from where C3 applies. *)
Lemma dispatch_failure_marks_failed (ev : IntakeEvent) (pn : option string)
    (store : gmap string Guard.DispatchRecord) (err : DispatchError) :
  (dispatch ev pn store).1.1 = Failed err ->
  exists r, (dispatch ev pn store).1.2 !! eventId ev = Some r /\ Guard.status r = Guard.Failed.
Proof.
  unfold Dispatcher.dispatch.
  destruct (Guard.admit_event (receivedAt ev) (eventId ev) store) as [adm store1] eqn:Hadm.
  destruct adm; [| discriminate].
  assert (H1 : store1 !! eventId ev = Some (Guard.fresh_record (receivedAt ev) (eventId ev))).
  { unfold Guard.admit_event in Hadm.
    destruct (store !! eventId ev) as [r0|]; [destruct (Guard.status r0)|];
      inversion Hadm; subst; apply lookup_insert_eq. }
  assert (Hf : exists r, Guard.mark_failed (eventId ev) store1 !! eventId ev = Some r /\
                         Guard.status r = Guard.Failed).
  { unfold Guard.mark_failed. rewrite lookup_alter_eq, H1. simpl. eexists; split; reflexivity. }
  destruct (Deriver.derive cfg (sourceBucket ev) (objectKey ev)) as [loc|e]; [| intros _; exact Hf].
  destruct (Resolver.resolve catalog defaultRef pn) as [prof|e]; [| intros _; exact Hf].
  destruct (submit_with_retry downstream 0 defaultDispatchAttempts _) as [[h|e] log];
    [discriminate | intros _; exact Hf].
Qed.

End WithServices.

Lemma submit_with_retry_log (downstream : Downstream) (attempt fuel : nat) (req : DispatchRequest) :
  Forall (fun r => r = req) (submit_with_retry downstream attempt fuel req).2.
Proof.
  revert attempt. induction fuel as [| fuel IH]; intros attempt; simpl; [constructor |].
  destruct (downstream attempt req); try (repeat constructor; fail).
  specialize (IH (S attempt)).
  destruct (submit_with_retry downstream (S attempt) fuel req) as [r log]. simpl in *.
  constructor; [reflexivity | exact IH].
Qed.

Lemma submit_with_retry_error (downstream : Downstream) (attempt fuel : nat) (req : DispatchRequest)
    (e : Resolver.ResolveError) :
  (submit_with_retry downstream attempt fuel req).1 <> Err (ResolveFailed e).
Proof.
  revert attempt. induction fuel as [| fuel IH]; intros attempt; simpl; [congruence |].
  destruct (downstream attempt req); simpl; try congruence.
  specialize (IH (S attempt)).
  destruct (submit_with_retry downstream (S attempt) fuel req) as [r log]. exact IH.
Qed.

(** A delivery without a profile name is dispatched with [ref]: it never
    fails in the Profile Resolver, every downstream request it issues
    carries [ref], and the catalog is not consulted. *)
Lemma dispatch_without_profile_name (cfg : Deriver.Configuration) (catalog catalog' : Resolver.Catalog)
    (downstream : Downstream) (ref : Resolver.ProfileReference) (ev : IntakeEvent)
    (store : gmap string Guard.DispatchRecord) :
  (forall e, (Dispatcher.dispatch cfg catalog downstream ref ev None store).1.1 <> Failed (ResolveFailed e)) /\
  Forall (fun req => profile req = ref) (Dispatcher.dispatch cfg catalog downstream ref ev None store).2 /\
  Dispatcher.dispatch cfg catalog downstream ref ev None store =
  Dispatcher.dispatch cfg catalog' downstream ref ev None store.
Proof.
  unfold Dispatcher.dispatch.
  destruct (Guard.admit_event (receivedAt ev) (eventId ev) store) as [[|] store1].
  2: { split; [intros e He; simpl in He; congruence | split; [constructor | reflexivity]]. }
  destruct (Deriver.derive cfg (sourceBucket ev) (objectKey ev)) as [loc|e].
  2: { split; [intros e' He; simpl in He; congruence | split; [constructor | reflexivity]]. }
  cbn [Resolver.resolve].
  set (req := {| location := loc; profile := ref; notifyOnCompletion := true |}).
  pose proof (submit_with_retry_log downstream 0 defaultDispatchAttempts req) as Hlog.
  pose proof (submit_with_retry_error downstream 0 defaultDispatchAttempts req) as Herr.
  destruct (submit_with_retry downstream 0 defaultDispatchAttempts req) as [[h|e] log].
  all: simpl in *; split; [intros e' He; simpl in He | split; [| reflexivity]].
  1: congruence.
  2: { injection He as ->. exact (Herr e' eq_refl). }
  all: eapply Forall_impl; [exact Hlog | intros r ->; reflexivity].
Qed.

Lemma run_deliveries_without_profile_name (cfg : Deriver.Configuration)
    (catalog catalog' : Resolver.Catalog) (downstream : Downstream) (ref : Resolver.ProfileReference)
    (ds : list (IntakeEvent * option string)) (store : gmap string Guard.DispatchRecord) :
  Forall (fun d => d.2 = None) ds ->
  Forall (fun '(_, o, log) => (forall e, o <> Failed (ResolveFailed e)) /\
                              Forall (fun req => profile req = ref) log)
         (Dispatcher.run_deliveries cfg catalog downstream ref ds store).1 /\
  Dispatcher.run_deliveries cfg catalog downstream ref ds store =
  Dispatcher.run_deliveries cfg catalog' downstream ref ds store.
Proof.
  intros Hds. revert store. induction Hds as [| [ev pn] ds Hpn _ IH]; intros store;
    [split; [constructor | reflexivity] |].
  simpl in Hpn. subst pn. simpl.
  destruct (dispatch_without_profile_name cfg catalog catalog' downstream ref ev store)
    as (Hnf & Hprof & Heq).
  rewrite <- Heq.
  destruct (Dispatcher.dispatch cfg catalog downstream ref ev None store) as [[o store1] log].
  destruct (IH store1) as [IH1 IH2]. rewrite <- IH2.
  destruct (Dispatcher.run_deliveries cfg catalog downstream ref ds store1) as [trace store2].
  simpl in *. split; [constructor; [split; assumption | exact IH1] | reflexivity].
Qed.

(** Claim C7: without a configured default profile the process fails at
    start with [MissingProfileConfigError] and handles no event, whatever
    the catalog and the deliveries. With a default profile [n], once start
    has succeeded with [ref], [ref] is what the catalog answered for [n] at
    start; every delivery without a profile name is then dispatched with
    [ref] (each downstream request carries it, and none fails in the
    Profile Resolver), and the outcome does not depend on the catalog at
    event time: the default is resolved once, at start. *)
Theorem default_profile_resolved_at_startup (catalog0 : Resolver.Catalog) (n : string)
    (ref : Resolver.ProfileReference) :
  (forall cfg catalog downstream ds store,
     run_process catalog0 None cfg catalog downstream ds store = Err Resolver.MissingProfileConfigError) /\
  (Resolver.startup catalog0 (Some n) = Ok ref ->
   Resolver.resolve_named catalog0 n = Ok ref /\
   forall cfg catalog catalog' downstream ds store,
     Forall (fun d => d.2 = None) ds ->
     run_process catalog0 (Some n) cfg catalog downstream ds store =
       Ok (Dispatcher.run_deliveries cfg catalog downstream ref ds store) /\
     Forall (fun '(_, o, log) => (forall e, o <> Failed (ResolveFailed e)) /\
                                 Forall (fun req => profile req = ref) log)
            (Dispatcher.run_deliveries cfg catalog downstream ref ds store).1 /\
     run_process catalog0 (Some n) cfg catalog downstream ds store =
     run_process catalog0 (Some n) cfg catalog' downstream ds store).
Proof.
  split; [reflexivity |].
  intros Hstart.
  assert (Hres : Resolver.resolve_named catalog0 n = Ok ref).
  { unfold Resolver.startup in Hstart.
    destruct (Resolver.resolve_named catalog0 n); [injection Hstart as ->; reflexivity | discriminate]. }
  split; [exact Hres |].
  intros cfg catalog catalog' downstream ds store Hds.
  unfold run_process. rewrite Hstart.
  destruct (run_deliveries_without_profile_name cfg catalog catalog' downstream ref ds store Hds)
    as [H1 H2].
  split; [reflexivity | split; [exact H1 | rewrite H2; reflexivity]].
Qed.

End DispatcherFacts.

(* ===================================================================== *)
(** ** The theorems at concrete inputs                                     *)
(* ===================================================================== *)

Module Witnesses.
Import Samples.

Lemma admit_exactly_one_witness :
  length [Some Guard.AdmitGranted; Some Guard.AlreadyHandled] = 2 /\
  Guard.count_admitted [Some Guard.AdmitGranted; Some Guard.AlreadyHandled] = 1 /\
  Guard.count_already_handled [Some Guard.AdmitGranted; Some Guard.AlreadyHandled] = 2 - 1.
Proof.
  apply (GuardFacts.admit_exactly_one "evt-1" 2 ∅
           (Guard.admit_event 1 "evt-1" (Guard.admit_event 0 "evt-1" ∅).2).2).
  - lia.
  - reflexivity.
  - eapply rtc_l; [apply (Guard.admit_step_call "evt-1" 0 0%Z); reflexivity |].
    eapply rtc_l; [apply (Guard.admit_step_call "evt-1" 1 1%Z); reflexivity |].
    apply rtc_refl.
  - repeat constructor; discriminate.
Defined.

Lemma submitted_is_terminal_witness :
  let ds := [(evt1, None); (evt1, Some "lending")] in
  let run := Dispatcher.run_deliveries Deriver.deployedConfiguration catalog downstream defaultRef
               ds (<["evt-1" := submitted_record]> ∅) in
  run.2 !! "evt-1" = Some submitted_record /\
  Forall (fun '(ev, o, log) => Dispatcher.eventId ev = "evt-1" -> o = Dispatcher.Skipped /\ log = [])
         run.1.
Proof.
  apply (DispatcherFacts.submitted_is_terminal Deriver.deployedConfiguration catalog downstream
           defaultRef "evt-1" submitted_record); reflexivity.
Defined.

Lemma failed_is_reattempted_witness :
  (Guard.admit_event 0 "evt-1" (<["evt-1" := failed_record]> ∅)).1 = Guard.AdmitGranted /\
  (Dispatcher.dispatch Deriver.deployedConfiguration catalog downstream defaultRef
     evt1 None (<["evt-1" := failed_record]> ∅)).1.1 <> Dispatcher.Skipped.
Proof.
  apply (DispatcherFacts.failed_is_reattempted Deriver.deployedConfiguration catalog downstream
           defaultRef evt1 None (<["evt-1" := failed_record]> ∅) failed_record); reflexivity.
Defined.

Lemma derive_rejects_unroutable_witness :
  Deriver.derive Deriver.deployedConfiguration "b" "samples/a.pdf" = Err Deriver.UnroutableKeyError /\
  forall loc, Deriver.derive Deriver.deployedConfiguration "b" "samples/a.pdf" <> Ok loc.
Proof.
  apply DeriverFacts.derive_rejects_unroutable. reflexivity.
Defined.

Lemma derived_output_not_rerouted_witness :
  exists outKey,
    Deriver.outputUri {| Deriver.inputUri := "s3://b/documents/loan123.pdf";
                         Deriver.outputUri := "s3://b/documents-output/loan123.pdf" |}
      = Deriver.s3_uri "b" outKey /\
    Deriver.routable Deriver.deployedConfiguration outKey = false /\
    Deriver.derive Deriver.deployedConfiguration "b" outKey = Err Deriver.UnroutableKeyError /\
    (forall (bn : string) (ctx : LendingFlowStack.Context) (e : LendingFlowStack.S3Event),
       LendingFlowStack.ev_key e = outKey ->
       LendingFlowStack.triggers_lambda (LendingFlowStack.lending_flow_stack bn ctx) e = false).
Proof.
  apply (DeriverFacts.derived_output_not_rerouted "b" "documents/loan123.pdf"). reflexivity.
Defined.

Lemma default_profile_resolved_at_startup_witness :
  Resolver.resolve_named catalog "lending" = Ok defaultRef /\
  Dispatcher.run_process catalog (Some "lending") Deriver.deployedConfiguration
    (fun _ _ => Resolver.NotFound) downstream [(evt1, None)] ∅ =
  Dispatcher.run_process catalog (Some "lending") Deriver.deployedConfiguration
    catalog downstream [(evt1, None)] ∅.
Proof.
  destruct (proj2 (DispatcherFacts.default_profile_resolved_at_startup catalog "lending" defaultRef)
              (eq_refl : Resolver.startup catalog (Some "lending") = Ok defaultRef)) as [Hres Hrun].
  split; [exact Hres |].
  destruct (Hrun Deriver.deployedConfiguration (fun _ _ => Resolver.NotFound) catalog downstream
              [(evt1, None)] ∅) as (_ & _ & Heq); [repeat constructor |].
  exact Heq.
Defined.

Lemma single_documents_rule_witness :
  In "samples/" LendingFlowStack.unrouted_prefixes /\
  LendingFlowStack.triggers_lambda (LendingFlowStack.lending_flow_stack "bk" no_context)
    samples_upload = false.
Proof.
  split; [simpl; tauto |].
  apply (proj2 (proj2 (StackFacts.single_documents_rule "bk" no_context))
           samples_upload "samples/" "a.pdf"); [simpl; tauto | reflexivity].
Defined.

End Witnesses.

(* ===================================================================== *)
(** ** Further properties of the stack                                     *)
(* ===================================================================== *)

Module StackExtras.
Import LendingFlowStack.

(** The four placeholder deployments of the stack have pairwise distinct
    construct ids (CDK refuses two children with one id) and write four
    distinct objects. *)
Theorem placeholder_ids_distinct (bn : string) (ctx : Context) :
  NoDup (map bd_id (placeholder_deployments (lending_flow_stack bn ctx))) /\
  NoDup (map deployed_object_key (placeholder_deployments (lending_flow_stack bn ctx))).
Proof.
  split; simpl; apply (bool_decide_unpack _); vm_compute; reflexivity.
Qed.

(** Of the objects the stack deploys as placeholders, the creation of the
    one it writes under "documents/" matches the processing rule, so it
    invokes the processing Lambda; the other placeholders do not. *)
Theorem placeholder_triggers_iff_documents (bn : string) (ctx : Context) (d : BucketDeployment) :
  In d (placeholder_deployments (lending_flow_stack bn ctx)) ->
  In (bd_destination_key_prefix d) prefixes /\
  (triggers_lambda (lending_flow_stack bn ctx) (object_created bn (deployed_object_key d)) = true <->
   bd_destination_key_prefix d = "documents/").
Proof.
  intros Hd. rewrite StackFacts.triggers_lambda_iff. cbn [object_created ev_source ev_detail_type ev_bucket ev_key].
  unfold placeholder_deployments in Hd. simpl in Hd.
  destruct Hd as [<- | [<- | [<- | [<- | []]]]]; simpl;
    (split; [tauto |]); split; intuition (try discriminate; try reflexivity).
Qed.

(** Every event that invokes the processing Lambda comes from the bucket its
    TARGET_BUCKET_NAME variable names, under "documents/". *)
Theorem triggered_event_from_target_bucket (bn : string) (ctx : Context) (e : S3Event) :
  triggers_lambda (lending_flow_stack bn ctx) e = true ->
  env_lookup (lending_flow_stack bn ctx) "TARGET_BUCKET_NAME" = Some (ev_bucket e) /\
  starts_with "documents/" (ev_key e) = true.
Proof.
  intros Ht. apply StackFacts.triggers_lambda_iff in Ht as (_ & _ & -> & Hk).
  split; [destruct ctx as [[|] [|]]; reflexivity | exact Hk].
Qed.

Lemma char_eq_ci_refl (c : ascii) : char_eq_ci c c = true.
Proof. unfold char_eq_ci. apply Ascii.eqb_refl. Qed.

Lemma glob_star (s : string) : glob_ci "*" s = true.
Proof.
  induction s as [| c s IH]; [reflexivity |].
  simpl in *. exact IH.
Qed.

Lemma glob_literal (p s : string) :
  no_wildcards p = true -> glob_ci p s = eq_ci p s.
Proof.
  revert s. induction p as [| c p IH]; intros s Hp; [destruct s; reflexivity |].
  simpl in Hp. apply andb_true_iff in Hp as [Hp Hrest].
  apply andb_true_iff in Hp as [Hs Hq]. apply negb_true_iff in Hs, Hq.
  simpl. rewrite Hs. destruct s as [| c' s]; [reflexivity |].
  rewrite Hq, IH by exact Hrest. reflexivity.
Qed.

Lemma glob_literal_star (p s : string) :
  no_wildcards p = true -> glob_ci (p +:+ "*") s = starts_with_ci p s.
Proof.
  revert s. induction p as [| c p IH]; intros s Hp.
  - rewrite glob_star. destruct s; reflexivity.
  - simpl in Hp. apply andb_true_iff in Hp as [Hp Hrest].
    apply andb_true_iff in Hp as [Hs Hq]. apply negb_true_iff in Hs, Hq.
    simpl. rewrite Hs. destruct s as [| c' s]; [reflexivity |].
    rewrite Hq, IH by exact Hrest. reflexivity.
Qed.

(** The statements added to the Lambda's role allow, on any resource,
    exactly the action bedrock:InvokeDataAutomationAsync and the actions
    whose name starts with bedrock:List (IAM compares action names without
    regard to case); every other action, such as bedrock:InvokeModel, is
    not granted by them. *)
Theorem role_statements_allow_iff (action resource : string) :
  statements_allow invoke_function_role_statements action resource = true <->
  eq_ci "bedrock:InvokeDataAutomationAsync" action = true \/
  starts_with_ci "bedrock:List" action = true.
Proof.
  unfold statements_allow, invoke_function_role_statements.
  cbn [existsb ps_actions ps_resources].
  rewrite glob_star, (glob_literal "bedrock:InvokeDataAutomationAsync") by reflexivity.
  change "bedrock:List*"%string with ("bedrock:List" +:+ "*")%string.
  rewrite glob_literal_star by reflexivity.
  rewrite !orb_false_r, !andb_true_r, orb_true_iff. tauto.
Qed.

End StackExtras.

Module ExtraWitnesses.
Import LendingFlowStack.

Lemma placeholder_triggers_iff_documents_witness :
  In "documents/" prefixes /\
  (triggers_lambda (lending_flow_stack "bk" Samples.no_context)
     (object_created "bk" (deployed_object_key (placeholder_deployment "documents/"))) = true <->
   "documents/" = "documents/").
Proof.
  apply (StackExtras.placeholder_triggers_iff_documents "bk" Samples.no_context
           (placeholder_deployment "documents/")).
  simpl. tauto.
Defined.

Lemma triggered_event_from_target_bucket_witness :
  env_lookup (lending_flow_stack "bk" Samples.no_context) "TARGET_BUCKET_NAME" = Some "bk" /\
  starts_with "documents/" "documents/loan123.pdf" = true.
Proof.
  apply (StackExtras.triggered_event_from_target_bucket "bk" Samples.no_context
           (object_created "bk" "documents/loan123.pdf")).
  reflexivity.
Defined.

End ExtraWitnesses.
